(** * BisonGuard: streaming pipeline and analytics aggregator

    A shallow embedding of [rtsp_bison_tracker_2.py] (HLSManager,
    StreamManager) and [analytics_engine.py] (BisonAnalytics), with the
    properties of the design document stated over it.

    Conventions.
    - Python floats that carry pixel coordinates, confidences and speeds are
      idealised as rationals ([Q]); counters are [nat]; [datetime] values are
      integers counting microseconds.
    - [dict]s keyed by camera or track are [gmap]s, except where the code
      iterates over one ([movement_patterns]), which is kept as an
      association list in insertion order.
    - An exception leaves the mutations made before it in place, so every
      stateful operation returns the state together with its outcome. *)

From Stdlib Require Import ZArith QArith Qround List String Ascii Bool Lia.
From stdpp Require Import gmap strings list fin_maps.

Local Open Scope string_scope.
Local Open Scope list_scope.

(* ===================================================================== *)
(** * posixpath: the library functions used by [HLSManager.resolve_path] *)
(* ===================================================================== *)

Module posixpath.

Definition sep : ascii := "/"%char.

(** [s.startswith(p)] *)
Fixpoint startswith (s p : string) : bool :=
  match p, s with
  | EmptyString, _ => true
  | String _ _, EmptyString => false
  | String c p', String d s' => Ascii.eqb c d && startswith s' p'
  end.

(** [s.endswith('/')] *)
Fixpoint endswith_sep (s : string) : bool :=
  match s with
  | EmptyString => false
  | String c EmptyString => Ascii.eqb c sep
  | String _ s' => endswith_sep s'
  end.

(** [posixpath.join(a, b)]: an absolute [b] replaces [a]; otherwise the two
    are glued with exactly one separator. *)
Definition join (a b : string) : string :=
  if startswith b "/" then b
  else if String.eqb a "" || endswith_sep a then a +:+ b
  else a +:+ "/" +:+ b.

(** [s.split('/')] *)
Fixpoint split (s : string) : list string :=
  match s with
  | EmptyString => [EmptyString]
  | String c s' =>
      if Ascii.eqb c sep then EmptyString :: split s'
      else match split s' with
           | [] => [String c EmptyString]
           | w :: ws => String c w :: ws
           end
  end.

(** ['/'.join(comps)] *)
Fixpoint sep_join (comps : list string) : string :=
  match comps with
  | [] => ""
  | [c] => c
  | c :: cs => c +:+ "/" +:+ sep_join cs
  end.

Definition is_nil {A} (l : list A) : bool :=
  match l with [] => true | _ => false end.

(** One iteration of the loop of [normpath] over the components:
    [initial_slashes] is 0, 1 or 2 and [new_comps] is the list built so far
    (appended to and popped from at its end). *)
Definition normpath_step (initial_slashes : nat) (new_comps : list string)
    (comp : string) : list string :=
  if String.eqb comp "" || String.eqb comp "." then new_comps
  else if negb (String.eqb comp "..")
          || ((initial_slashes =? 0)%nat && is_nil new_comps)
          || (negb (is_nil new_comps) && String.eqb (List.last new_comps "") "..")
       then new_comps ++ [comp]
       else if negb (is_nil new_comps) then removelast new_comps
       else new_comps.

Definition count_initial_slashes (path : string) : nat :=
  if startswith path "/" then
    if startswith path "//" && negb (startswith path "///") then 2 else 1
  else 0.

Fixpoint sep_times (n : nat) : string :=
  match n with O => "" | S n' => String sep (sep_times n') end.

(** [posixpath.normpath(path)] *)
Definition normpath (path : string) : string :=
  if String.eqb path "" then "."
  else
    let initial_slashes := count_initial_slashes path in
    let comps := fold_left (normpath_step initial_slashes) (split path) [] in
    let path := sep_join comps in
    let path := if (0 <? initial_slashes)%nat
                then sep_times initial_slashes +:+ path else path in
    if String.eqb path "" then "." else path.

(** The loop of [commonprefix]: walk [s1] and return [s1[:i]] at the first
    index where [s2] differs, or [s1] itself.  [s1] is the minimum of the
    list, so [s2] cannot run out before a difference shows. *)
Fixpoint common_run (s1 s2 : string) : string :=
  match s1, s2 with
  | EmptyString, _ => EmptyString
  | String _ _, EmptyString => EmptyString
  | String c s1', String d s2' =>
      if Ascii.eqb c d then String c (common_run s1' s2') else EmptyString
  end.

Definition str_min (a b : string) : string := if String.ltb b a then b else a.
Definition str_max (a b : string) : string := if String.ltb a b then b else a.

(** [os.path.commonprefix(m)]: the longest common leading run of
    characters (not of path components) of the strings of [m]. *)
Definition commonprefix (m : list string) : string :=
  match m with
  | [] => ""
  | x :: xs =>
      let s1 := fold_left str_min xs x in
      let s2 := fold_left str_max xs x in
      common_run s1 s2
  end.

(** [path] names [dir] itself or something below it, component-wise. *)
Definition within (dir path : string) : bool :=
  String.eqb path dir || startswith path (dir +:+ "/").

End posixpath.

(* ===================================================================== *)
(** * HLSManager: the transcode pipeline *)
(* ===================================================================== *)

(** [queue.Queue(maxsize)]: [put_nowait] raises [queue.Full] (here [None])
    when a positive [maxsize] is reached. *)
Module pyqueue.
Section Queue.
Context {A : Type}.

Record Queue := mkQueue { maxsize : nat; items : list A }.

Definition qsize (q : Queue) : nat := length (items q).

Definition put_nowait (q : Queue) (item : A) : option Queue :=
  if (0 <? maxsize q)%nat && (maxsize q <=? qsize q)%nat then None
  else Some (mkQueue (maxsize q) (items q ++ [item])).
End Queue.
Arguments Queue : clear implicits.
End pyqueue.

(** Python floats where not-a-number and the infinities matter (the frame
    rate reported by the capture handle). *)
Inductive pyfloat :=
| Finite (q : Q)
| Inf (negative : bool)
| NaN.

Module pyfloat_ops.
(** [bool(x)]: a float is falsy exactly when it is zero. *)
Definition truthy (x : pyfloat) : bool :=
  match x with
  | Finite q => negb (Qeq_bool q 0)
  | _ => true
  end.

Definition isnan (x : pyfloat) : bool :=
  match x with NaN => true | _ => false end.

(** [x <= q] for a finite [q]; every comparison with NaN is false. *)
Definition le_const (x : pyfloat) (q : Q) : bool :=
  match x with
  | Finite p => Qle_bool p q
  | Inf negative => negative
  | NaN => false
  end.

Definition positive (x : pyfloat) : bool :=
  match x with
  | Finite p => negb (Qle_bool p 0)
  | Inf negative => negb negative
  | NaN => false
  end.

Definition finite (x : pyfloat) : bool :=
  match x with Finite _ => true | _ => false end.
End pyfloat_ops.

Module HLS.
Import pyqueue pyfloat_ops.

Section Manager.
Context {Frame : Type}.

Record HLSManager := mkHLS {
  width : Z;
  height : Z;
  fps : pyfloat;
  segment_time : Z;
  list_size : Z;
  delete_old : bool;
  enabled : bool;
  tmpdir : option string;
  frame_q : Queue Frame;
  running : bool
}.

(** The frame rate kept by [__init__]:
    [float(fps) if fps and not math.isnan(fps) else 25.0]. *)
Definition init_fps (fps : pyfloat) : pyfloat :=
  if truthy fps && negb (isnan fps) then fps else Finite 25.

(** [__init__]; [ffmpeg_on_path] is the answer of [which("ffmpeg")]. *)
Definition init (ffmpeg_on_path : bool) (width height : Z) (fps : pyfloat)
    (segment_time list_size : Z) (delete_old : bool) : HLSManager :=
  {| width := width; height := height; fps := init_fps fps;
     segment_time := segment_time; list_size := list_size;
     delete_old := delete_old;
     enabled := ffmpeg_on_path;
     tmpdir := None;
     frame_q := mkQueue 60 [];
     running := false |}.

Definition set_frame_q (h : HLSManager) (q : Queue Frame) : HLSManager :=
  {| width := width h; height := height h; fps := fps h;
     segment_time := segment_time h; list_size := list_size h;
     delete_old := delete_old h; enabled := enabled h;
     tmpdir := tmpdir h; frame_q := q; running := running h |}.

(** [write_frame]: returns at once when the pipeline is off; otherwise
    [put_nowait], with [queue.Full] caught and ignored. *)
Definition write_frame (h : HLSManager) (frame : Frame) : HLSManager :=
  if negb (enabled h) || negb (running h) then h
  else match put_nowait (frame_q h) frame with
       | Some q' => set_frame_q h q'
       | None => h
       end.
End Manager.
Arguments HLSManager : clear implicits.

(** [resolve_path], as a function of [self.tmpdir] and the requested name. *)
Definition resolve_path (tmpdir : option string) (name : string) : option string :=
  match tmpdir with
  | None => None
  | Some dir =>
      if String.eqb dir "" then None
      else
        let candidate := posixpath.normpath (posixpath.join dir name) in
        if negb (String.eqb (posixpath.commonprefix [candidate; dir]) dir)
        then None
        else Some candidate
  end.

End HLS.

(* ===================================================================== *)
(** * StreamManager.start_stream: the metadata read *)
(* ===================================================================== *)

Module Stream.
Import pyfloat_ops.

(** [if not fps or math.isnan(fps) or fps <= 1: fps = 25.0] *)
Definition start_stream_fps (reported : pyfloat) : pyfloat :=
  if negb (truthy reported) || isnan reported || le_const reported 1
  then Finite 25 else reported.

(** The frame rate the HLSManager built by [start_stream] ends up with. *)
Definition pipeline_fps (reported : pyfloat) : pyfloat :=
  HLS.init_fps (start_stream_fps reported).

End Stream.


(* ===================================================================== *)
(** * BisonAnalytics: the analytics aggregator *)
(* ===================================================================== *)

(** [numpy] arrays of counters.  [zone_heatmap] holds float64 arrays that
    are only ever incremented by one, so their cells are natural numbers
    (exactly representable far beyond any reachable count). *)
Module np.

Abbreviation ndarray := (list (list nat)).

Definition zeros (shape : nat * nat) : ndarray :=
  replicate (fst shape) (replicate (snd shape) 0%nat).

Definition has_shape (shape : nat * nat) (a : ndarray) : Prop :=
  length a = fst shape ∧ Forall (λ row, length row = snd shape) a.

(** [a[y, x]] for indices in range. *)
Definition cell (a : ndarray) (y x : nat) : nat :=
  default 0%nat (a !! y ≫= λ row, row !! x).

(** [a[y, x] += v] for indices in range (nothing to update otherwise). *)
Definition add_at (a : ndarray) (y x v : nat) : ndarray :=
  alter (alter (λ c, c + v)%nat x) y a.

(** An integer index along an axis of length [n]: negative indices count
    from the end, anything outside [-n, n) is an [IndexError] ([None]). *)
Definition index (n : nat) (i : Z) : option nat :=
  if ((0 <=? i) && (i <? Z.of_nat n))%Z then Some (Z.to_nat i)
  else if ((- Z.of_nat n <=? i) && (i <? 0))%Z then Some (Z.to_nat (i + Z.of_nat n))
  else None.

(** [a[iy, ix] += 1] with Python integers as indices. *)
Definition increment (a : ndarray) (iy ix : Z) : option ndarray :=
  y ← index (length a) iy;
  row ← a !! y;
  x ← index (length row) ix;
  Some (add_at a y x 1).

(** Cell-wise sum of two arrays of one shape. *)
Definition add (a b : ndarray) : ndarray :=
  zip_with (zip_with Nat.add) a b.

Definition sum (l : list Q) : Q := fold_left Qplus l 0%Q.

(** [np.mean] of a list of numbers. *)
Definition mean (l : list Q) : Q := (sum l / inject_Z (Z.of_nat (length l)))%Q.

(** [a.max()] *)
Definition max (a : ndarray) : nat :=
  fold_left Nat.max (concat a) 0%nat.

End np.

(** [int(x)]: truncation toward zero. *)
Definition py_int (x : Q) : Z := Z.quot (Qnum x) (Z.pos (Qden x)).

(** [collections.deque(maxlen=...)]: [append] adds on the right and, when
    the bound is exceeded, drops one element on the left. *)
Definition deque_append {A} (maxlen : nat) (d : list A) (x : A) : list A :=
  let d' := d ++ [x] in
  if (maxlen <? length d')%nat then tail d' else d'.

(** A [dict] in insertion order: assignment to a present key replaces the
    value in place, assignment to a new key appends. *)
Module odict.
Section Dict.
Context {V : Type}.

Fixpoint get (k : Z) (d : list (Z * V)) : option V :=
  match d with
  | [] => None
  | (k', v) :: d' => if (k =? k')%Z then Some v else get k d'
  end.

Fixpoint set (k : Z) (v : V) (d : list (Z * V)) : list (Z * V) :=
  match d with
  | [] => [(k, v)]
  | (k', v') :: d' =>
      if (k =? k')%Z then (k, v) :: d' else (k', v') :: set k v d'
  end.
End Dict.
End odict.

Module Analytics.

(** ** Data *)

(** [bbox]: [x1, y1, x2, y2] *)
Abbreviation BBox := (Q * Q * Q * Q)%type.

(** A detection dictionary; a key may be absent ([None]). *)
Record Detection := mkDetection {
  d_track_id : option Z;
  d_confidence : option Q;
  d_bbox : option BBox;
  d_class : Z
}.

(** [detection.get('confidence', 0)] *)
Definition get_confidence (d : Detection) : Q := default 0%Q (d_confidence d).

(** [detection.get('bbox', [0, 0, 0, 0])] *)
Definition get_bbox (d : Detection) : BBox := default (0, 0, 0, 0)%Q (d_bbox d).

(** [(center_x, center_y, timestamp)] *)
Abbreviation Position := (Q * Q * Z)%type.

Record Movement := mkMovement {
  current_speed : Q;
  avg_speed : Q;
  total_distance : Q;
  direction : Q
}.

(** The alert dictionaries built by [_check_alerts]; type, severity and
    message text are functions of the constructor and its payload. *)
Inductive Alert :=
| high_activity (camera_id : string) (count : nat)
| low_confidence (camera_id : string) (confidence : Q)
| rapid_movement (camera_id : string) (track_id : Z) (speed : Q).

Definition alert_type (a : Alert) : string :=
  match a with
  | high_activity _ _ => "high_activity"
  | low_confidence _ _ => "low_confidence"
  | rapid_movement _ _ _ => "rapid_movement"
  end.

Definition alert_severity (a : Alert) : string :=
  match a with
  | high_activity _ _ => "warning"
  | low_confidence _ _ => "info"
  | rapid_movement _ _ _ => "warning"
  end.

Definition alert_camera_id (a : Alert) : string :=
  match a with
  | high_activity c _ | low_confidence c _ | rapid_movement c _ _ => c
  end.

(** Rows of the SQLite tables; [r_timestamp] and [a_timestamp] are the
    [CURRENT_TIMESTAMP] defaults, in seconds. *)
Record DetectionRow := mkDetectionRow {
  r_timestamp : Z;
  r_camera_id : string;
  r_track_id : option Z;
  r_confidence : option Q;
  r_bbox_x1 : option Q;
  r_bbox_y1 : option Q;
  r_bbox_x2 : option Q;
  r_bbox_y2 : option Q;
  r_frame_number : Z
}.

Record AlertRow := mkAlertRow {
  a_timestamp : Z;
  a_alert_type : string;
  a_severity : string;
  a_camera_id : string;
  a_data : Alert
}.

Record Database := mkDatabase {
  detections : list DetectionRow;
  alerts : list AlertRow
}.

Record Stats := mkStats {
  total_detections : nat;
  unique_tracks : gset Z;
  peak_count : nat;
  peak_time : option Z;
  avg_confidence : Q;
  avg_dwell_time : Q;
  total_alerts : nat;
  cameras_active : nat
}.

(** The aggregator together with the database file it writes to. *)
Record BisonAnalytics := mkAnalytics {
  current_detections : gmap string (list Detection);
  tracking_history : gmap Z (list Position);
  movement_patterns : list (Z * Movement);
  zone_heatmap : gmap string np.ndarray;
  detection_confidence : list Q;
  stats : Stats;
  db : Database
}.

Definition heatmap_resolution : nat * nat := (100, 100)%nat.
Definition history_maxlen : nat := 1000.
Definition confidence_maxlen : nat := 1000.

(** [alert_thresholds] *)
Definition threshold_high_activity : nat := 10.
Definition threshold_low_confidence : Q := 3 # 10.
Definition threshold_rapid_movement : Q := 50.

(** ** Field updates *)

Definition set_current_detections (s : BisonAnalytics) v : BisonAnalytics :=
  mkAnalytics v (tracking_history s) (movement_patterns s) (zone_heatmap s)
    (detection_confidence s) (stats s) (db s).
Definition set_tracking_history (s : BisonAnalytics) v : BisonAnalytics :=
  mkAnalytics (current_detections s) v (movement_patterns s) (zone_heatmap s)
    (detection_confidence s) (stats s) (db s).
Definition set_movement_patterns (s : BisonAnalytics) v : BisonAnalytics :=
  mkAnalytics (current_detections s) (tracking_history s) v (zone_heatmap s)
    (detection_confidence s) (stats s) (db s).
Definition set_zone_heatmap (s : BisonAnalytics) v : BisonAnalytics :=
  mkAnalytics (current_detections s) (tracking_history s) (movement_patterns s) v
    (detection_confidence s) (stats s) (db s).
Definition set_detection_confidence (s : BisonAnalytics) v : BisonAnalytics :=
  mkAnalytics (current_detections s) (tracking_history s) (movement_patterns s)
    (zone_heatmap s) v (stats s) (db s).
Definition set_stats (s : BisonAnalytics) v : BisonAnalytics :=
  mkAnalytics (current_detections s) (tracking_history s) (movement_patterns s)
    (zone_heatmap s) (detection_confidence s) v (db s).
Definition set_db (s : BisonAnalytics) v : BisonAnalytics :=
  mkAnalytics (current_detections s) (tracking_history s) (movement_patterns s)
    (zone_heatmap s) (detection_confidence s) (stats s) v.

Definition set_total_detections (st : Stats) v : Stats :=
  mkStats v (unique_tracks st) (peak_count st) (peak_time st)
    (avg_confidence st) (avg_dwell_time st) (total_alerts st) (cameras_active st).
Definition set_unique_tracks (st : Stats) v : Stats :=
  mkStats (total_detections st) v (peak_count st) (peak_time st)
    (avg_confidence st) (avg_dwell_time st) (total_alerts st) (cameras_active st).
Definition set_peak (st : Stats) count time : Stats :=
  mkStats (total_detections st) (unique_tracks st) count time
    (avg_confidence st) (avg_dwell_time st) (total_alerts st) (cameras_active st).
Definition set_avg_confidence (st : Stats) v : Stats :=
  mkStats (total_detections st) (unique_tracks st) (peak_count st) (peak_time st)
    v (avg_dwell_time st) (total_alerts st) (cameras_active st).
Definition set_total_alerts (st : Stats) v : Stats :=
  mkStats (total_detections st) (unique_tracks st) (peak_count st) (peak_time st)
    (avg_confidence st) (avg_dwell_time st) v (cameras_active st).
Definition set_cameras_active (st : Stats) v : Stats :=
  mkStats (total_detections st) (unique_tracks st) (peak_count st) (peak_time st)
    (avg_confidence st) (avg_dwell_time st) (total_alerts st) v.

(** ** Exceptions over the aggregator state *)

Inductive exn := IndexError.

Inductive outcome (A : Type) :=
| Returned (a : A)
| Raised (e : exn).
Arguments Returned {A} a.
Arguments Raised {A} e.

(** A method body: it transforms the aggregator and either returns or
    raises; what it changed before raising stays changed. *)
Definition M (A : Type) : Type := BisonAnalytics → BisonAnalytics * outcome A.

Definition ret {A} (a : A) : M A := λ s, (s, Returned a).

Definition bind {A B} (m : M A) (k : A → M B) : M B :=
  λ s, match m s with
       | (s', Returned a) => k a s'
       | (s', Raised e) => (s', Raised e)
       end.

Definition modify (f : BisonAnalytics → BisonAnalytics) : M unit :=
  λ s, (f s, Returned tt).

Definition gets {A} (f : BisonAnalytics → A) : M A :=
  λ s, (s, Returned (f s)).

Declare Scope method_scope.
Delimit Scope method_scope with method.
Notation "x <- c1 ;; c2" := (bind c1 (λ x, c2))
  (at level 100, c1 at next level, c2 at level 200, right associativity) : method_scope.
Notation "c1 ;; c2" := (bind c1 (λ _, c2))
  (at level 100, c2 at level 200, right associativity) : method_scope.

(** [for x in l: body(x)] *)
Fixpoint for_each {A} (l : list A) (body : A → M unit) : M unit :=
  match l with
  | [] => ret tt
  | x :: l' => bind (body x) (λ _, for_each l' body)
  end.

(** [try: m / except Exception: pass] *)
Definition try_except (m : M unit) : M unit :=
  λ s, (fst (m s), Returned tt).

(** ** Heat map *)

(** [self.zone_heatmap[camera_id][grid_y, grid_x] += 1]: reading the
    [defaultdict] creates the camera's grid of zeros first, so the entry
    exists even when the index is then refused. *)
Definition heatmap_increment (camera_id : string) (grid_y grid_x : Z) : M unit :=
  λ s,
    let grid := default (np.zeros heatmap_resolution) (zone_heatmap s !! camera_id) in
    match np.increment grid grid_y grid_x with
    | Some grid' =>
        (set_zone_heatmap s (<[camera_id := grid']> (zone_heatmap s)), Returned tt)
    | None =>
        (set_zone_heatmap s (<[camera_id := grid]> (zone_heatmap s)), Raised IndexError)
    end.

Definition _update_heatmap (camera_id : string) (bbox : BBox) : M unit :=
  let '(x1, y1, _, _) := bbox in
  let grid_x := Z.min (py_int (x1 / 192)) 9 in
  let grid_y := Z.min (py_int (y1 / 108)) 9 in
  heatmap_increment camera_id grid_y grid_x.

(** The body of the loop of [_rebuild_heatmap_from_db]. *)
Definition _rebuild_row (row : string * BBox) : M unit :=
  let '(camera_id, (x1, y1, x2, y2)) := row in
  let center_x := ((x1 + x2) / 2)%Q in
  let center_y := ((y1 + y2) / 2)%Q in
  let grid_x :=
    py_int (center_x * (inject_Z (Z.of_nat (fst heatmap_resolution)) / 1920)) in
  let grid_y :=
    py_int (center_y * (inject_Z (Z.of_nat (snd heatmap_resolution)) / 1080)) in
  let grid_x := Z.min grid_x (Z.of_nat (fst heatmap_resolution) - 1) in
  let grid_y := Z.min grid_y (Z.of_nat (snd heatmap_resolution) - 1) in
  heatmap_increment camera_id grid_y grid_x.

(** The SELECT of [_rebuild_heatmap_from_db]: rows of the last 24 hours
    whose four box columns are not NULL. *)
Definition recent_with_bbox (db_now : Z) (r : DetectionRow) : option (string * BBox) :=
  if (db_now - 86400 <? r_timestamp r)%Z then
    match r_bbox_x1 r, r_bbox_y1 r, r_bbox_x2 r, r_bbox_y2 r with
    | Some x1, Some y1, Some x2, Some y2 => Some (r_camera_id r, (x1, y1, x2, y2))
    | _, _, _, _ => None
    end
  else None.

Definition _rebuild_heatmap_from_db (db_now : Z) : M unit :=
  λ s,
    let rows := omap (recent_with_bbox db_now) (detections (db s)) in
    try_except (for_each rows _rebuild_row) s.

(** [__init__] on the database file found at [db_path]. *)
Definition init (database : Database) (db_now : Z) : BisonAnalytics :=
  let s :=
    {| current_detections := ∅;
       tracking_history := ∅;
       movement_patterns := [];
       zone_heatmap := ∅;
       detection_confidence := [];
       stats := {| total_detections := 0; unique_tracks := ∅; peak_count := 0;
                   peak_time := None; avg_confidence := 0; avg_dwell_time := 0;
                   total_alerts := 0; cameras_active := 0 |};
       db := database |} in
  fst (_rebuild_heatmap_from_db db_now s).

(** ** Persistence *)

Definition detection_row (db_now : Z) (camera_id : string) (detection : Detection)
    (frame_number : Z) : DetectionRow :=
  let '(x1, y1, x2, y2) := get_bbox detection in
  {| r_timestamp := db_now;
     r_camera_id := camera_id;
     r_track_id := d_track_id detection;
     r_confidence := d_confidence detection;
     r_bbox_x1 := Some x1; r_bbox_y1 := Some y1;
     r_bbox_x2 := Some x2; r_bbox_y2 := Some y2;
     r_frame_number := frame_number |}.

(** [_store_detection]: INSERT INTO detections *)
Definition _store_detection (db_now : Z) (camera_id : string) (detection : Detection)
    (frame_number : Z) (s : BisonAnalytics) : BisonAnalytics :=
  set_db s {| detections := detections (db s)
                              ++ [detection_row db_now camera_id detection frame_number];
              alerts := alerts (db s) |}.

Definition alert_row (db_now : Z) (alert : Alert) : AlertRow :=
  {| a_timestamp := db_now;
     a_alert_type := alert_type alert;
     a_severity := alert_severity alert;
     a_camera_id := alert_camera_id alert;
     a_data := alert |}.

(** [_store_alert]: INSERT INTO alerts *)
Definition _store_alert (db_now : Z) (alert : Alert) (s : BisonAnalytics) : BisonAnalytics :=
  set_db s {| detections := detections (db s);
              alerts := alerts (db s) ++ [alert_row db_now alert] |}.

(** [timedelta.total_seconds()] of a difference in microseconds *)
Definition total_seconds (microseconds : Z) : Q := microseconds # 1000000.

(** [if track_id:] is false for [None] and for 0. *)
Definition truthy_track_id (track_id : option Z) : option Z :=
  match track_id with
  | Some tid => if (tid =? 0)%Z then None else Some tid
  | None => None
  end.

Section Numeric.
(** [np.sqrt] and [np.arctan2] on the idealised floats *)
Variable np_sqrt : Q → Q.
Variable np_arctan2 : Q → Q → Q.

(** ** Tracks *)

Definition _track_movement (track_id : Z) (bbox : BBox) (timestamp : Z)
    (s : BisonAnalytics) : BisonAnalytics :=
  let '(x1, y1, x2, y2) := bbox in
  let center_x := ((x1 + x2) / 2)%Q in
  let center_y := ((y1 + y2) / 2)%Q in
  let position : Position := (center_x, center_y, timestamp) in
  let history :=
    deque_append history_maxlen (default [] (tracking_history s !! track_id)) position in
  let s := set_tracking_history s (<[track_id := history]> (tracking_history s)) in
  if (1 <? length history)%nat then
    match history !! (length history - 2)%nat with
    | Some (prev_x, prev_y, prev_t) =>
        let time_diff := total_seconds (timestamp - prev_t) in
        if negb (Qle_bool time_diff 0) then
          let distance :=
            np_sqrt ((center_x - prev_x) ^ 2 + (center_y - prev_y) ^ 2)%Q in
          let speed := (distance / time_diff)%Q in
          let previous := odict.get track_id (movement_patterns s) in
          set_movement_patterns s
            (odict.set track_id
               {| current_speed := speed;
                  avg_speed := np.mean [default 0%Q (current_speed <$> previous)];
                  total_distance := (default 0 (total_distance <$> previous) + distance)%Q;
                  direction := np_arctan2 (center_y - prev_y)%Q (center_x - prev_x)%Q |}
               (movement_patterns s))
        else s
    | None => s
    end
  else s.

(** ** Alerts *)

Definition rapid_movement_alerts (camera_id : string)
    (patterns : list (Z * Movement)) : list Alert :=
  omap (λ '(track_id, movement),
          if negb (Qle_bool (current_speed movement) threshold_rapid_movement)
          then Some (rapid_movement camera_id track_id (current_speed movement))
          else None)
       patterns.

Definition _check_alerts (db_now : Z) (camera_id : string)
    (detections : list Detection) : M (list Alert) :=
  (alerts <- (if (threshold_high_activity <? length detections)%nat
              then
                let alert := high_activity camera_id (length detections) in
                modify (_store_alert db_now alert) ;; ret [alert]
              else ret []) ;;
   alerts <- ret (match detections with
                  | [] => alerts
                  | _ :: _ =>
                      let avg_conf := np.mean (get_confidence <$> detections) in
                      if negb (Qle_bool threshold_low_confidence avg_conf)
                      then alerts ++ [low_confidence camera_id avg_conf]
                      else alerts
                  end) ;;
   patterns <- gets movement_patterns ;;
   alerts <- ret (alerts ++ rapid_movement_alerts camera_id patterns) ;;
   modify (λ s, set_stats s
             (set_total_alerts (stats s) (total_alerts (stats s) + length alerts)%nat)) ;;
   ret alerts)%method.

(** ** Recording a frame *)

(** The body of the loop over the detections of a frame. *)
Definition process_detection (timestamp db_now : Z) (camera_id : string)
    (frame_number : Z) (detection : Detection) : M unit :=
  (let track_id := d_track_id detection in
   let confidence := get_confidence detection in
   let bbox := get_bbox detection in
   modify (λ s, set_detection_confidence s
             (deque_append confidence_maxlen (detection_confidence s) confidence)) ;;
   match truthy_track_id track_id with
   | Some tid =>
       modify (λ s, set_stats s
                 (set_unique_tracks (stats s) ({[tid]} ∪ unique_tracks (stats s)))) ;;
       modify (_track_movement tid bbox timestamp) ;;
       _update_heatmap camera_id bbox
   | None => ret tt
   end ;;
   modify (_store_detection db_now camera_id detection frame_number))%method.

Record FrameResult := mkFrameResult {
  res_count : nat;
  res_alerts : list Alert;
  res_timestamp : Z
}.

(** "Store current detections" and "Update statistics" *)
Definition store_and_count (camera_id : string) (detections : list Detection)
    (s : BisonAnalytics) : BisonAnalytics :=
  let s := set_current_detections s
             (<[camera_id := detections]> (current_detections s)) in
  let s := set_stats s
             (set_total_detections (stats s)
                (total_detections (stats s) + length detections)%nat) in
  set_stats s
    (set_cameras_active (stats s)
       (length (filter (λ d, d ≠ []) (snd <$> map_to_list (current_detections s))))).

(** "Update peak count" *)
Definition update_peak_count (current_count : nat) (timestamp : Z)
    (s : BisonAnalytics) : BisonAnalytics :=
  if (peak_count (stats s) <? current_count)%nat
  then set_stats s (set_peak (stats s) current_count (Some timestamp))
  else s.

(** "Update average confidence" *)
Definition update_average_confidence (s : BisonAnalytics) : BisonAnalytics :=
  match detection_confidence s with
  | [] => s
  | _ :: _ =>
      set_stats s (set_avg_confidence (stats s) (np.mean (detection_confidence s)))
  end.

(** [process_frame_detections]; [timestamp] is what [datetime.now()]
    answers and [db_now] the clock of the database during the call. *)
Definition process_frame_detections (timestamp db_now : Z) (camera_id : string)
    (detections : list Detection) (frame_number : Z) : M FrameResult :=
  (modify (store_and_count camera_id detections) ;;
   for_each detections (process_detection timestamp db_now camera_id frame_number) ;;
   alerts <- _check_alerts db_now camera_id detections ;;
   modify (update_peak_count (length detections) timestamp) ;;
   modify update_average_confidence ;;
   ret {| res_count := length detections;
          res_alerts := alerts;
          res_timestamp := timestamp |})%method.

(** One call of [process_frame_detections] with the clock readings made
    during it. *)
Record Call := mkCall {
  c_timestamp : Z;
  c_db_now : Z;
  c_camera_id : string;
  c_detections : list Detection;
  c_frame_number : Z
}.

Definition run_call (s : BisonAnalytics) (c : Call) : BisonAnalytics :=
  fst (process_frame_detections (c_timestamp c) (c_db_now c) (c_camera_id c)
         (c_detections c) (c_frame_number c) s).

(** The aggregator after a sequence of calls, whether they returned or
    raised. *)
Definition run_calls (s : BisonAnalytics) (calls : list Call) : BisonAnalytics :=
  fold_left run_call calls s.

End Numeric.

(** ** Heat map snapshot *)

Definition vis_grid_size : nat := 20.

(** The coarse index [int(y / scale)] of a fine index. *)
Definition agg_index (scale : Q) (y : nat) : nat :=
  Z.to_nat (py_int (inject_Z (Z.of_nat y) / scale)).

(** The aggregation loop of [get_heatmap_data]. *)
Definition aggregate (high_res_heatmap : np.ndarray) : np.ndarray :=
  let scale_y :=
    (inject_Z (Z.of_nat (fst heatmap_resolution)) / inject_Z (Z.of_nat vis_grid_size))%Q in
  let scale_x :=
    (inject_Z (Z.of_nat (snd heatmap_resolution)) / inject_Z (Z.of_nat vis_grid_size))%Q in
  fold_left
    (λ aggregated_heatmap y,
       fold_left
         (λ aggregated_heatmap x,
            if (0 <? np.cell high_res_heatmap y x)%nat then
              np.add_at aggregated_heatmap (agg_index scale_y y) (agg_index scale_x x)
                (np.cell high_res_heatmap y x)
            else aggregated_heatmap)
         (seq 0 (snd heatmap_resolution)) aggregated_heatmap)
    (seq 0 (fst heatmap_resolution))
    (np.zeros (vis_grid_size, vis_grid_size)).

Record HeatPoint := mkHeatPoint { hp_x : Z; hp_y : Z; hp_value : nat }.

Definition heat_points (aggregated_heatmap : np.ndarray) : list HeatPoint :=
  y ← seq 0 vis_grid_size;
  x ← seq 0 vis_grid_size;
  if (0 <? np.cell aggregated_heatmap y x)%nat then
    [ {| hp_x := py_int (inject_Z (Z.of_nat x) * (800 / inject_Z (Z.of_nat vis_grid_size)));
         hp_y := py_int (inject_Z (Z.of_nat y) * (450 / inject_Z (Z.of_nat vis_grid_size)));
         hp_value := np.cell aggregated_heatmap y x |} ]
  else [].

(** [get_heatmap_data]: [(max, data)] *)
Definition get_heatmap_data (s : BisonAnalytics) (camera_id : string)
    : nat * list HeatPoint :=
  match zone_heatmap s !! camera_id with
  | None => (0%nat, [])
  | Some high_res_heatmap =>
      let aggregated_heatmap := aggregate high_res_heatmap in
      if (np.max aggregated_heatmap =? 0)%nat then (0%nat, [])
      else (np.max aggregated_heatmap, heat_points aggregated_heatmap)
  end.

(** ** Vocabulary for the properties below *)

(** A method leaves an observation [p] of the aggregator alone, whether it
    returns or raises. *)
Definition preserves {X A} (p : BisonAnalytics → X) (m : M A) : Prop :=
  ∀ s, p (fst (m s)) = p s.

(** A method keeps an invariant [I]. *)
Definition keeps {A} (I : BisonAnalytics → Prop) (m : M A) : Prop :=
  ∀ s, I s → I (fst (m s)).

(** Every track history is within its bound. *)
Definition histories_bounded (s : BisonAnalytics) : Prop :=
  ∀ track_id (h : list Position),
    tracking_history s !! track_id = Some h → (length h ≤ history_maxlen)%nat.

(** Every grid of the heat map has the fixed resolution. *)
Definition heatmaps_shaped (s : BisonAnalytics) : Prop :=
  ∀ camera_id (grid : np.ndarray),
    zone_heatmap s !! camera_id = Some grid → np.has_shape heatmap_resolution grid.

(** The position [_track_movement] records for a box seen at [timestamp]. *)
Definition center_position (bbox : BBox) (timestamp : Z) : Position :=
  let '(x1, y1, x2, y2) := bbox in
  (((x1 + x2) / 2)%Q, ((y1 + y2) / 2)%Q, timestamp).

(** Three arrays of one shape, the third being the cell-wise sum of the
    first two. *)
Definition sums_to (shape : nat * nat) (a1 a2 a12 : np.ndarray) : Prop :=
  np.has_shape shape a1 ∧ np.has_shape shape a2 ∧ np.has_shape shape a12
  ∧ ∀ i j, np.cell a12 i j = (np.cell a1 i j + np.cell a2 i j)%nat.

End Analytics.

(** Concrete inputs on which the model is run below.  [sqrt_milli] and
    [arctan2_octant] are computable instances of the numeric primitives:
    the square root rounded down to thousandths, and the direction rounded
    to an eighth of a turn (with 355/113 for pi). *)
Module Samples.
Import Analytics.

Definition sqrt_milli (q : Q) : Q := Z.sqrt (Qfloor (q * 1000000)) # 1000.

Definition arctan2_octant (y x : Q) : Q :=
  let quarter_pi : Q := 355 # 452 in
  match (y ?= 0)%Q, (x ?= 0)%Q with
  | Eq, Lt => 4 * quarter_pi
  | Eq, _ => 0
  | Gt, Gt => quarter_pi
  | Gt, Eq => 2 * quarter_pi
  | Gt, Lt => 3 * quarter_pi
  | Lt, Gt => - quarter_pi
  | Lt, Eq => - (2 * quarter_pi)
  | Lt, Lt => - (3 * quarter_pi)
  end.

Definition empty_database : Database := {| detections := []; alerts := [] |}.

Definition detection (track_id : option Z) (confidence : Q) (bbox : BBox) : Detection :=
  {| d_track_id := track_id; d_confidence := Some confidence;
     d_bbox := Some bbox; d_class := 0 |}.

(** A running pipeline whose queue holds the frames 1 to 60. *)
Definition full_pipeline : HLS.HLSManager nat :=
  HLS.set_frame_q
    (HLS.mkHLS 1280 720 (Finite 25) 2 6 true true (Some "/tmp/hls_ab12cd34")
       (pyqueue.mkQueue 60 []) true)
    (pyqueue.mkQueue 60 (seq 1 60)).

(** The aggregator after track 7 was seen once, at second 1. *)
Definition one_sighting : BisonAnalytics :=
  run_calls sqrt_milli arctan2_octant (init empty_database 0)
    [ {| c_timestamp := 1000000; c_db_now := 1; c_camera_id := "cam1";
         c_detections := [detection (Some 7%Z) (9 # 10) (960, 540, 1160, 740)%Q];
         c_frame_number := 1 |} ].

(** A thousand sightings of track 7 within one clock reading, the [i]-th
    at the point [(i, 0)]: enough to fill the track's history. *)
Definition sighting (i : nat) : Call :=
  {| c_timestamp := 1000000; c_db_now := 1; c_camera_id := "cam1";
     c_detections :=
       [detection (Some 7%Z) 1
          (inject_Z (Z.of_nat i), 0, inject_Z (Z.of_nat i), 0)%Q];
     c_frame_number := Z.of_nat i |}.

Definition thousand_sightings : list Call := sighting <$> seq 0 1000.

End Samples.

(* ===================================================================== *)
(** * Properties of the transcode pipeline *)
(* ===================================================================== *)

Module HLSProps.
Import posixpath pyqueue HLS.

(** ** The bounded frame queue *)

Lemma put_nowait_full {A} (q : Queue A) (item : A) :
  (0 < maxsize q)%nat → (maxsize q ≤ qsize q)%nat → put_nowait q item = None.
Proof.
  intros Hpos Hfull. unfold put_nowait.
  destruct (Nat.ltb_spec 0 (maxsize q)); [|lia].
  destruct (Nat.leb_spec (maxsize q) (qsize q)); [done|lia].
Qed.

Lemma put_nowait_room {A} (q q' : Queue A) (item : A) :
  put_nowait q item = Some q' →
  maxsize q' = maxsize q ∧ items q' = items q ++ [item].
Proof.
  unfold put_nowait. destruct (_ && _); [done|].
  intros [= <-]. done.
Qed.

(** [write_frame] never changes the bound of the queue, and a queue within
    its bound stays within it. *)
Lemma write_frame_maxsize {Frame} (h : HLSManager Frame) (frame : Frame) :
  maxsize (frame_q (write_frame h frame)) = maxsize (frame_q h).
Proof.
  unfold write_frame. destruct (_ || _); [done|].
  destruct (put_nowait _ _) as [q'|] eqn:Hput; [|done].
  apply put_nowait_room in Hput. by destruct Hput.
Qed.

Lemma write_frame_bounded {Frame} (h : HLSManager Frame) (frame : Frame) :
  (0 < maxsize (frame_q h))%nat →
  (qsize (frame_q h) ≤ maxsize (frame_q h))%nat →
  (qsize (frame_q (write_frame h frame)) ≤ maxsize (frame_q h))%nat.
Proof.
  intros Hpos Hle. unfold write_frame. destruct (_ || _); [done|].
  destruct (put_nowait _ _) as [q'|] eqn:Hput; [|done].
  pose proof Hput as [_ Hitems]%put_nowait_room.
  unfold put_nowait in Hput.
  destruct (Nat.ltb_spec 0 (maxsize (frame_q h))); [|lia].
  destruct (Nat.leb_spec (maxsize (frame_q h)) (qsize (frame_q h))); [done|].
  cbn. unfold qsize in *. rewrite Hitems, length_app. cbn. lia.
Qed.

(** C7. When the frame queue (capacity 60) already holds 60 frames,
    [write_frame] returns with the pipeline exactly as it was: the new frame
    is discarded, and the queue keeps its 60 frames, unchanged and in
    order. *)
Theorem write_frame_full_queue_drops_new_frame {Frame}
    (h : HLSManager Frame) (frame : Frame) :
  maxsize (frame_q h) = 60%nat →
  qsize (frame_q h) = 60%nat →
  write_frame h frame = h
  ∧ items (frame_q (write_frame h frame)) = items (frame_q h)
  ∧ qsize (frame_q (write_frame h frame)) = 60%nat.
Proof.
  intros Hmax Hfull.
  assert (write_frame h frame = h) as ->; [|done].
  unfold write_frame. destruct (_ || _); [done|].
  rewrite put_nowait_full; [done|lia..].
Qed.

Lemma write_frame_full_queue_drops_new_frame_witness :
  write_frame Samples.full_pipeline 61%nat = Samples.full_pipeline
  ∧ items (frame_q (write_frame Samples.full_pipeline 61%nat)) = seq 1 60
  ∧ qsize (frame_q (write_frame Samples.full_pipeline 61%nat)) = 60%nat.
Proof.
  apply (write_frame_full_queue_drops_new_frame Samples.full_pipeline 61%nat);
    reflexivity.
Defined.

(** ** Path resolution *)

Lemma startswith_refl s : startswith s s = true.
Proof. induction s as [|c s IH]; [done|]. cbn. by rewrite Ascii.eqb_refl. Qed.

Lemma common_run_prefix_l s1 s2 : startswith s1 (common_run s1 s2) = true.
Proof.
  revert s2. induction s1 as [|c s1 IH]; intros [|d s2]; cbn; try done.
  destruct (Ascii.eqb c d) eqn:E; [|done].
  cbn. by rewrite Ascii.eqb_refl, IH.
Qed.

Lemma common_run_prefix_r s1 s2 : startswith s2 (common_run s1 s2) = true.
Proof.
  revert s2. induction s1 as [|c s1 IH]; intros [|d s2]; cbn; try done.
  destruct (Ascii.eqb c d) eqn:E; [|done].
  cbn. by rewrite E, IH.
Qed.

Lemma common_run_of_prefix s1 s2 : startswith s2 s1 = true → common_run s1 s2 = s1.
Proof.
  revert s2. induction s1 as [|c s1 IH]; intros [|d s2]; cbn; try done.
  destruct (Ascii.eqb c d) eqn:E; [|done]. cbn. intros H. by rewrite IH.
Qed.

Lemma prefix_not_gt s p : startswith s p = true → String.ltb s p = false.
Proof.
  unfold String.ltb. revert s. induction p as [|c p IH]; intros [|d s]; cbn; try done.
  destruct (Ascii.eqb c d) eqn:E; [|done]. cbn.
  apply Ascii.eqb_eq in E as ->. intros H.
  unfold Ascii.compare. rewrite N.compare_refl. by apply IH.
Qed.

Lemma commonprefix_pair_prefix_l a b : startswith a (commonprefix [a; b]) = true.
Proof.
  cbn. unfold str_min, str_max.
  destruct (String.ltb b a) eqn:Hba, (String.ltb a b) eqn:Hab;
    auto using common_run_prefix_l, common_run_prefix_r.
  unfold String.ltb in *. rewrite String.compare_antisym in Hba.
  destruct (String.compare a b); done.
Qed.

Lemma ltb_irrefl_sym a b : String.ltb a b = false → String.ltb b a = false → a = b.
Proof.
  unfold String.ltb. intros Hab Hba. apply String.compare_eq_iff.
  rewrite String.compare_antisym in Hba.
  destruct (String.compare a b); done.
Qed.

Lemma commonprefix_pair_of_prefix a b :
  startswith a b = true → commonprefix [a; b] = b.
Proof.
  intros H. cbn. unfold str_min, str_max.
  pose proof (prefix_not_gt _ _ H) as Hab. rewrite Hab.
  destruct (String.ltb b a) eqn:Hba.
  - by apply common_run_of_prefix.
  - rewrite (ltb_irrefl_sym _ _ Hab Hba).
    apply common_run_of_prefix, startswith_refl.
Qed.

(** What the guard of [resolve_path] decides: whether the characters of
    the directory are a leading run of the characters of the candidate. *)
Lemma resolve_path_spec dir name :
  dir ≠ "" →
  resolve_path (Some dir) name =
    let candidate := normpath (join dir name) in
    if startswith candidate dir then Some candidate else None.
Proof.
  intros Hdir. unfold resolve_path.
  destruct (String.eqb_spec dir ""); [done|]. cbn zeta.
  set (candidate := normpath (join dir name)).
  destruct (startswith candidate dir) eqn:Hpre.
  - rewrite commonprefix_pair_of_prefix by done. by rewrite String.eqb_refl.
  - destruct (String.eqb_spec (commonprefix [candidate; dir]) dir) as [Heq|]; [|done].
    pose proof (commonprefix_pair_prefix_l candidate dir) as H.
    rewrite Heq in H. congruence.
Qed.

(** C1 (the guard is missed). With the private directory
    [/tmp/hls_ab12cd34], the requested name [../hls_ab12cd34x/secret.ts]
    normalises to [/tmp/hls_ab12cd34x/secret.ts], which lies in a sibling
    directory, outside the private one; [resolve_path] nevertheless returns
    it, because the directory name is a leading run of its characters. *)
Theorem resolve_path_returns_sibling_directory :
  normpath (join "/tmp/hls_ab12cd34" "../hls_ab12cd34x/secret.ts")
    = "/tmp/hls_ab12cd34x/secret.ts"
  ∧ within "/tmp/hls_ab12cd34" "/tmp/hls_ab12cd34x/secret.ts" = false
  ∧ resolve_path (Some "/tmp/hls_ab12cd34") "../hls_ab12cd34x/secret.ts"
    = Some "/tmp/hls_ab12cd34x/secret.ts".
Proof. repeat split; vm_compute; reflexivity. Qed.

(** Names that climb out to an unrelated place are refused, and plain
    names of artifacts are resolved inside the directory. *)
Example resolve_path_rejects_parent :
  resolve_path (Some "/tmp/hls_ab12cd34") "../../etc/passwd" = None.
Proof. reflexivity. Qed.

Example resolve_path_accepts_segment :
  resolve_path (Some "/tmp/hls_ab12cd34") "segment00001.ts"
  = Some "/tmp/hls_ab12cd34/segment00001.ts".
Proof. reflexivity. Qed.

Example resolve_path_not_started :
  resolve_path None "index.m3u8" = None.
Proof. reflexivity. Qed.

End HLSProps.

(* ===================================================================== *)
(** * Properties of the metadata read *)
(* ===================================================================== *)

Module StreamProps.
Import pyfloat_ops Stream.

Lemma zero_le_one (q : Q) : Qeq_bool q 0 = true → Qle_bool q 1 = true.
Proof.
  intros H. apply Qeq_bool_iff in H. apply Qle_bool_iff.
  rewrite H. discriminate.
Qed.

Lemma above_one_nonzero (q : Q) : Qle_bool q 1 = false → Qeq_bool q 0 = false.
Proof.
  intros H. destruct (Qeq_bool q 0) eqn:E; [|done].
  apply zero_le_one in E. congruence.
Qed.

(** A reported rate of one frame per second is positive and finite, yet it
    is replaced by the default. *)
Lemma positive_finite_rate_replaced :
  ¬ (∀ reported, positive reported = true → finite reported = true →
       start_stream_fps reported = reported).
Proof.
  intros H. specialize (H (Finite 1) eq_refl eq_refl).
  vm_compute in H. discriminate.
Qed.

(** C8 (amended). The reported frame rate is replaced by 25.0 exactly when
    it is not-a-number or at most 1 (every non-positive rate included);
    every other rate is kept as it is, and [HLSManager.__init__] keeps
    the value [start_stream] hands it. *)
Theorem start_stream_fps_default (reported : pyfloat) :
  start_stream_fps reported =
    (if isnan reported || le_const reported 1 then Finite 25 else reported)
  ∧ pipeline_fps reported = start_stream_fps reported.
Proof.
  unfold pipeline_fps, HLS.init_fps, start_stream_fps.
  destruct reported as [q| [|] |]; cbn; try done.
  destruct (Qle_bool q 1) eqn:Hle.
  - rewrite orb_true_r. done.
  - rewrite (above_one_nonzero _ Hle). cbn. rewrite (above_one_nonzero _ Hle). done.
Qed.

End StreamProps.

(* ===================================================================== *)
(** * Properties of the analytics aggregator *)
(* ===================================================================== *)

Module AnalyticsProps.
Import Analytics Samples.

(** ** Frame rules for observations *)

Lemma preserves_ret {X A} (p : BisonAnalytics → X) (a : A) : preserves p (ret a).
Proof. done. Qed.

Lemma preserves_gets {X A} (p : BisonAnalytics → X) (f : BisonAnalytics → A) :
  preserves p (gets f).
Proof. done. Qed.

Lemma preserves_modify {X} (p : BisonAnalytics → X) f :
  (∀ s, p (f s) = p s) → preserves p (modify f).
Proof. intros H s. apply H. Qed.

Lemma preserves_bind {X A B} (p : BisonAnalytics → X) (m : M A) (k : A → M B) :
  preserves p m → (∀ a, preserves p (k a)) → preserves p (bind m k).
Proof.
  intros Hm Hk s. unfold bind. specialize (Hm s).
  destruct (m s) as [s' [a|e]]; cbn in *; [|done].
  by rewrite Hk.
Qed.

Lemma preserves_for_each {X A} (p : BisonAnalytics → X) (l : list A) body :
  (∀ x, preserves p (body x)) → preserves p (for_each l body).
Proof.
  intros Hbody. induction l as [|x l IH]; cbn; [done|].
  apply preserves_bind; auto.
Qed.

Lemma preserves_try_except {X} (p : BisonAnalytics → X) m :
  preserves p m → preserves p (try_except m).
Proof. intros H s. apply H. Qed.

Lemma keeps_ret {A} I (a : A) : keeps I (ret a).
Proof. by intros s. Qed.

Lemma keeps_gets {A} I (f : BisonAnalytics → A) : keeps I (gets f).
Proof. by intros s. Qed.

Lemma keeps_modify I f : (∀ s, I s → I (f s)) → keeps I (modify f).
Proof. intros H s. apply H. Qed.

Lemma keeps_bind {A B} I (m : M A) (k : A → M B) :
  keeps I m → (∀ a, keeps I (k a)) → keeps I (bind m k).
Proof.
  intros Hm Hk s Hs. unfold bind. specialize (Hm s Hs).
  destruct (m s) as [s' [a|e]]; cbn in *; [|done].
  by apply Hk.
Qed.

Lemma keeps_for_each {A} I (l : list A) body :
  (∀ x, keeps I (body x)) → keeps I (for_each l body).
Proof.
  intros Hbody. induction l as [|x l IH]; cbn; [by intros s|].
  apply keeps_bind; auto.
Qed.

Lemma keeps_try_except I m : keeps I m → keeps I (try_except m).
Proof. intros H s. apply H. Qed.

(** ** What each method touches *)

Lemma heatmap_increment_preserves {X} (p : BisonAnalytics → X) camera_id gy gx :
  (∀ s v, p (set_zone_heatmap s v) = p s) →
  preserves p (heatmap_increment camera_id gy gx).
Proof.
  intros H s. unfold heatmap_increment.
  destruct (np.increment _ _ _); cbn; apply H.
Qed.

Lemma update_heatmap_preserves {X} (p : BisonAnalytics → X) camera_id bbox :
  (∀ s v, p (set_zone_heatmap s v) = p s) →
  preserves p (_update_heatmap camera_id bbox).
Proof.
  intros H. destruct bbox as [[[x1 y1] x2] y2]. cbn.
  by apply heatmap_increment_preserves.
Qed.

Lemma rebuild_preserves {X} (p : BisonAnalytics → X) db_now :
  (∀ s v, p (set_zone_heatmap s v) = p s) →
  preserves p (_rebuild_heatmap_from_db db_now).
Proof.
  intros H s. unfold _rebuild_heatmap_from_db.
  apply preserves_try_except, preserves_for_each.
  intros [camera_id [[[x1 y1] x2] y2]]. cbn.
  by apply heatmap_increment_preserves.
Qed.

Section Counting.
Variable np_sqrt : Q → Q.
Variable np_arctan2 : Q → Q → Q.

Lemma track_movement_preserves {X} (p : BisonAnalytics → X) track_id bbox timestamp s :
  (∀ s v, p (set_tracking_history s v) = p s) →
  (∀ s v, p (set_movement_patterns s v) = p s) →
  p (_track_movement np_sqrt np_arctan2 track_id bbox timestamp s) = p s.
Proof.
  intros Hh Hm. unfold _track_movement.
  destruct bbox as [[[x1 y1] x2] y2].
  repeat case_match; rewrite ?Hm, ?Hh; done.
Qed.

Lemma check_alerts_preserves {X} (p : BisonAnalytics → X) db_now camera_id detections :
  (∀ s v, p (set_db s v) = p s) →
  (∀ s v, p (set_stats s v) = p s) →
  preserves p (_check_alerts db_now camera_id detections).
Proof.
  intros Hdb Hst. unfold _check_alerts.
  apply preserves_bind.
  - case_match; [|apply preserves_ret].
    apply preserves_bind; [|intros; apply preserves_ret].
    apply preserves_modify. intros s. apply Hdb.
  - intros alerts.
    repeat (apply preserves_bind; [|intros ?]);
      try apply preserves_ret; try apply preserves_gets.
    apply preserves_modify. intros s. apply Hst.
Qed.

Lemma process_detection_total_detections timestamp db_now camera_id frame_number d :
  preserves (λ s, total_detections (stats s))
    (process_detection np_sqrt np_arctan2 timestamp db_now camera_id frame_number d).
Proof.
  unfold process_detection.
  apply preserves_bind; [by apply preserves_modify|intros _].
  apply preserves_bind; [|intros _; by apply preserves_modify].
  case_match; [|apply preserves_ret].
  apply preserves_bind; [by apply preserves_modify|intros _].
  apply preserves_bind; [|intros _; by apply update_heatmap_preserves].
  apply preserves_modify. intros s.
  by apply (track_movement_preserves (λ s, total_detections (stats s))).
Qed.

Lemma check_alerts_total_detections db_now camera_id detections :
  preserves (λ s, total_detections (stats s)) (_check_alerts db_now camera_id detections).
Proof.
  unfold _check_alerts.
  apply preserves_bind.
  - case_match; [|apply preserves_ret].
    apply preserves_bind; [|intros; apply preserves_ret].
    by apply preserves_modify.
  - intros alerts.
    repeat (apply preserves_bind; [|intros ?]);
      try apply preserves_ret; try apply preserves_gets.
    by apply preserves_modify.
Qed.

Lemma update_peak_count_total_detections n t s :
  total_detections (stats (update_peak_count n t s)) = total_detections (stats s).
Proof. unfold update_peak_count. by case_match. Qed.

Lemma update_average_confidence_total_detections s :
  total_detections (stats (update_average_confidence s)) = total_detections (stats s).
Proof. unfold update_average_confidence. by case_match. Qed.

(** One call adds the number of its detections to the running total,
    whether it returns or raises. *)
Lemma process_frame_detections_total timestamp db_now camera_id detections frame_number s :
  total_detections (stats (fst (process_frame_detections np_sqrt np_arctan2
      timestamp db_now camera_id detections frame_number s)))
  = (total_detections (stats s) + length detections)%nat.
Proof.
  unfold process_frame_detections.
  change (bind (modify ?f) ?k s) with (k tt (f s)). cbv beta.
  match goal with |- context [fst (?m (store_and_count ?c ?d s))] =>
    assert (preserves (λ s, total_detections (stats s)) m) as ->
  end; [|done].
  apply preserves_bind;
    [apply preserves_for_each; intros; apply process_detection_total_detections|intros _].
  apply preserves_bind; [apply check_alerts_total_detections|intros alerts].
  apply preserves_bind;
    [apply preserves_modify, update_peak_count_total_detections|intros _].
  apply preserves_bind;
    [apply preserves_modify, update_average_confidence_total_detections|intros _].
  apply preserves_ret.
Qed.

Lemma run_calls_total s calls :
  total_detections (stats (run_calls np_sqrt np_arctan2 s calls))
  = (total_detections (stats s) + sum_list ((λ c, length (c_detections c)) <$> calls))%nat.
Proof.
  revert s. induction calls as [|c calls IH]; intros s; cbn; [lia|].
  unfold run_calls in IH. rewrite IH. unfold run_call.
  rewrite process_frame_detections_total. lia.
Qed.

(** C5. On a fresh aggregator, after any sequence of calls of
    [process_frame_detections], [total_detections] is the sum of the lengths
    of the detection lists passed, whatever the cameras, frame numbers,
    clock readings and detection contents were. *)
Theorem total_detections_is_sum_of_counts database db_now calls :
  total_detections (stats (run_calls np_sqrt np_arctan2 (init database db_now) calls))
  = sum_list ((λ c, length (c_detections c)) <$> calls).
Proof.
  rewrite run_calls_total. unfold init.
  rewrite (rebuild_preserves (λ s, total_detections (stats s))); done.
Qed.

End Counting.

(** ** Bounded deques *)

Lemma deque_append_eq {A} (n : nat) (d : list A) (x : A) :
  (0 < n)%nat →
  deque_append n d x = if (length d <? n)%nat then d ++ [x] else tail d ++ [x].
Proof.
  intros Hn. unfold deque_append. rewrite length_app. cbn [length].
  destruct (Nat.ltb_spec n (length d + 1)), (Nat.ltb_spec (length d) n);
    try lia; try done.
  destruct d; cbn [length app tail] in *; [lia|done].
Qed.

Lemma deque_append_length {A} (n : nat) (d : list A) (x : A) :
  (0 < n)%nat → (length d ≤ n)%nat → (length (deque_append n d x) ≤ n)%nat.
Proof.
  intros Hn Hd. rewrite deque_append_eq by done.
  destruct (Nat.ltb_spec (length d) n); rewrite length_app; cbn [length].
  - lia.
  - destruct d; cbn [length tail] in *; lia.
Qed.

Lemma deque_append_length_pos {A} (n : nat) (d : list A) (x : A) :
  (0 < n)%nat → (0 < length (deque_append n d x))%nat.
Proof.
  intros Hn. rewrite deque_append_eq by done.
  case_match; rewrite length_app; cbn [length]; lia.
Qed.

(** After an append, the element before the last is the old last one
    (the bound is at least 2). *)
Lemma deque_append_previous {A} (n : nat) (d : list A) (x y : A) :
  (2 ≤ n)%nat → last d = Some y →
  (1 <? length (deque_append n d x))%nat = true
  ∧ deque_append n d x !! (length (deque_append n d x) - 2)%nat = Some y.
Proof.
  intros Hn Hlast. rewrite deque_append_eq by lia.
  rewrite last_lookup in Hlast.
  assert (length d ≠ 0)%nat as Hne by (destruct d; [done|cbn [length]; lia]).
  destruct (Nat.ltb_spec (length d) n).
  - rewrite length_app. cbn [length]. split; [apply Nat.ltb_lt; lia|].
    rewrite lookup_app_l by lia.
    replace (length d + 1 - 2)%nat with (pred (length d)) by lia. done.
  - destruct d as [|z d]; [done|]. cbn [length tail pred] in *.
    rewrite length_app. cbn [length]. split; [apply Nat.ltb_lt; lia|].
    rewrite lookup_app_l by lia.
    destruct (length d) as [|k] eqn:Hk; [lia|].
    replace (S k + 1 - 2)%nat with k by lia. done.
Qed.

Lemma deque_append_first {A} (n : nat) (x : A) :
  (0 < n)%nat → deque_append n [] x = [x].
Proof.
  intros Hn. rewrite deque_append_eq by done. cbn [length].
  by destruct (Nat.ltb_spec 0 n); [|lia].
Qed.

(** ** Ordered dictionaries *)

Lemma odict_get_set {V} (k : Z) (v : V) (d : list (Z * V)) :
  odict.get k (odict.set k v d) = Some v.
Proof.
  induction d as [|[k' v'] d IH]; cbn.
  - by rewrite Z.eqb_refl.
  - destruct (Z.eqb_spec k k') as [->|Hne]; cbn.
    + by rewrite Z.eqb_refl.
    + destruct (Z.eqb_spec k k'); [done|]. apply IH.
Qed.

Lemma odict_get_set_ne {V} (k k' : Z) (v : V) (d : list (Z * V)) :
  k ≠ k' → odict.get k' (odict.set k v d) = odict.get k' d.
Proof.
  intros Hne. induction d as [|[k0 v0] d IH]; cbn.
  - destruct (Z.eqb_spec k' k); [congruence|done].
  - destruct (Z.eqb_spec k k0) as [->|Hne0]; cbn.
    + destruct (Z.eqb_spec k' k0); [congruence|done].
    + by rewrite IH.
Qed.

Section Tracks.
Variable np_sqrt : Q → Q.
Variable np_arctan2 : Q → Q → Q.

(** ** Track histories *)

Lemma track_movement_history track_id bbox timestamp s :
  tracking_history (_track_movement np_sqrt np_arctan2 track_id bbox timestamp s)
  = <[track_id :=
        deque_append history_maxlen (default [] (tracking_history s !! track_id))
          (center_position bbox timestamp)]> (tracking_history s).
Proof.
  unfold _track_movement, center_position.
  destruct bbox as [[[x1 y1] x2] y2].
  repeat case_match; done.
Qed.

Lemma track_movement_keeps_bound track_id bbox timestamp s :
  histories_bounded s →
  histories_bounded (_track_movement np_sqrt np_arctan2 track_id bbox timestamp s).
Proof.
  intros Hs tid h. rewrite track_movement_history.
  destruct (decide (track_id = tid)) as [->|Hne].
  - rewrite lookup_insert_eq. intros [= <-].
    apply deque_append_length; [unfold history_maxlen; lia|].
    destruct (tracking_history s !! tid) as [h0|] eqn:E; cbn; [by eapply Hs|lia].
  - rewrite lookup_insert_ne by done. apply Hs.
Qed.

Lemma histories_bounded_same s s' :
  tracking_history s' = tracking_history s → histories_bounded s → histories_bounded s'.
Proof. unfold histories_bounded. by intros ->. Qed.

Lemma process_detection_keeps_bound timestamp db_now camera_id frame_number d :
  keeps histories_bounded
    (process_detection np_sqrt np_arctan2 timestamp db_now camera_id frame_number d).
Proof.
  unfold process_detection.
  apply keeps_bind; [apply keeps_modify; intros s; by apply histories_bounded_same|intros _].
  apply keeps_bind;
    [|intros _; apply keeps_modify; intros s; by apply histories_bounded_same].
  case_match; [|apply keeps_ret].
  apply keeps_bind; [apply keeps_modify; intros s; by apply histories_bounded_same|intros _].
  apply keeps_bind; [apply keeps_modify; intros s; apply track_movement_keeps_bound|intros _].
  intros s. apply histories_bounded_same.
  by apply (update_heatmap_preserves tracking_history).
Qed.

Lemma process_frame_detections_keeps_bound timestamp db_now camera_id detections frame_number :
  keeps histories_bounded
    (process_frame_detections np_sqrt np_arctan2 timestamp db_now camera_id
       detections frame_number).
Proof.
  unfold process_frame_detections.
  apply keeps_bind; [apply keeps_modify; intros s; by apply histories_bounded_same|intros _].
  apply keeps_bind;
    [apply keeps_for_each; intros; apply process_detection_keeps_bound|intros _].
  apply keeps_bind.
  { intros s. apply histories_bounded_same.
    by apply (check_alerts_preserves tracking_history). }
  intros alerts.
  apply keeps_bind.
  { apply keeps_modify. intros s. apply histories_bounded_same.
    unfold update_peak_count. by case_match. }
  intros _. apply keeps_bind; [|intros _; apply keeps_ret].
  apply keeps_modify. intros s. apply histories_bounded_same.
  unfold update_average_confidence. by case_match.
Qed.

Lemma init_histories_bounded database db_now : histories_bounded (init database db_now).
Proof.
  unfold init. eapply histories_bounded_same.
  - by apply (rebuild_preserves tracking_history).
  - intros tid h. cbn. by rewrite lookup_empty.
Qed.

Lemma run_calls_keeps_bound s calls :
  histories_bounded s → histories_bounded (run_calls np_sqrt np_arctan2 s calls).
Proof.
  revert s. induction calls as [|c calls IH]; intros s Hs; [done|].
  cbn. apply IH. by apply process_frame_detections_keeps_bound.
Qed.

(** C6. In every state reached from a fresh aggregator by calls of
    [process_frame_detections], a track's position history holds at most
    1000 positions; and the next position recorded for the track is added
    at the end, after dropping the oldest stored position when the history
    is full. *)
Theorem history_capped_oldest_first database db_now calls track_id
    (h : list Position) bbox timestamp :
  tracking_history (run_calls np_sqrt np_arctan2 (init database db_now) calls)
    !! track_id = Some h →
  (length h ≤ 1000)%nat
  ∧ tracking_history
      (_track_movement np_sqrt np_arctan2 track_id bbox timestamp
         (run_calls np_sqrt np_arctan2 (init database db_now) calls)) !! track_id
    = Some (if (length h =? 1000)%nat
            then tail h ++ [center_position bbox timestamp]
            else h ++ [center_position bbox timestamp]).
Proof.
  intros Hh.
  assert (length h ≤ 1000)%nat as Hlen.
  { eapply (run_calls_keeps_bound _ calls (init_histories_bounded database db_now)), Hh. }
  split; [done|].
  rewrite track_movement_history, lookup_insert_eq, Hh. cbn.
  rewrite deque_append_eq by (unfold history_maxlen; lia).
  unfold history_maxlen.
  destruct (Nat.ltb_spec (length h) 1000), (Nat.eqb_spec (length h) 1000); done || lia.
Qed.

(** ** Speed *)

(** The first sighting of a track records a position and no movement. *)
Lemma track_movement_first_sighting track_id bbox timestamp s :
  default [] (tracking_history s !! track_id) = [] →
  movement_patterns (_track_movement np_sqrt np_arctan2 track_id bbox timestamp s)
  = movement_patterns s.
Proof.
  intros Hnone. unfold _track_movement.
  destruct bbox as [[[x1 y1] x2] y2].
  rewrite Hnone, deque_append_first by (unfold history_maxlen; lia). done.
Qed.

Lemma total_seconds_positive (us : Z) :
  negb (Qle_bool (total_seconds us) 0) = negb (us <=? 0)%Z.
Proof.
  f_equal. unfold total_seconds, Qle_bool. cbn.
  destruct (Z.leb_spec us 0), (Z.leb_spec (us * 1) 0); done || lia.
Qed.

(** C4. For a track whose last stored position is [(prev_x, prev_y,
    prev_t)], recording the next position at [timestamp]: when the elapsed
    time [timestamp - prev_t] is zero or negative, [movement_patterns] is
    left exactly as it was (no speed is computed, nothing is divided);
    otherwise the track's [current_speed] becomes the Euclidean distance
    between the two centres divided by the elapsed seconds, which are
    strictly positive. *)
Theorem track_movement_speed_guard track_id x1 y1 x2 y2 timestamp s
    (h : list Position) prev_x prev_y prev_t :
  tracking_history s !! track_id = Some h →
  last h = Some (prev_x, prev_y, prev_t) →
  if (timestamp - prev_t <=? 0)%Z
  then movement_patterns
         (_track_movement np_sqrt np_arctan2 track_id (x1, y1, x2, y2) timestamp s)
       = movement_patterns s
  else (0 < total_seconds (timestamp - prev_t))%Q
       ∧ ∃ m, odict.get track_id
                (movement_patterns
                   (_track_movement np_sqrt np_arctan2 track_id (x1, y1, x2, y2)
                      timestamp s)) = Some m
              ∧ current_speed m
                = (np_sqrt (((x1 + x2) / 2 - prev_x) ^ 2 + ((y1 + y2) / 2 - prev_y) ^ 2)
                   / total_seconds (timestamp - prev_t))%Q.
Proof.
  intros Hh Hlast. unfold _track_movement. cbv zeta. rewrite Hh.
  change (default [] (Some h)) with h.
  destruct (deque_append_previous history_maxlen h
              ((x1 + x2) / 2, (y1 + y2) / 2, timestamp)%Q _
              ltac:(unfold history_maxlen; lia) Hlast) as [Hlong Hprev].
  rewrite Hlong, Hprev.
  rewrite total_seconds_positive.
  destruct (Z.leb_spec (timestamp - prev_t) 0) as [Hle|Hgt]; cbn [negb]; [done|].
  split.
  - unfold total_seconds, Qlt. cbn. lia.
  - eexists. split; [apply odict_get_set|reflexivity].
Qed.

End Tracks.

(** ** Arrays *)

Lemma has_shape_zeros shape : np.has_shape shape (np.zeros shape).
Proof.
  split; [apply length_replicate|].
  apply Forall_replicate, length_replicate.
Qed.

Lemma cell_zeros shape i j : np.cell (np.zeros shape) i j = 0%nat.
Proof.
  unfold np.cell, np.zeros.
  destruct (replicate (fst shape) _ !! i) as [row|] eqn:Hrow; cbn; [|done].
  apply lookup_replicate_1 in Hrow as [-> _].
  destruct (replicate (snd shape) _ !! j) as [c|] eqn:Hc; cbn; [|done].
  by apply lookup_replicate_1 in Hc as [-> _].
Qed.

Lemma has_shape_add_at shape a y x v :
  np.has_shape shape a → np.has_shape shape (np.add_at a y x v).
Proof.
  intros [Hrows Hcols]. split; unfold np.add_at.
  - by rewrite length_alter.
  - apply Forall_alter; [done|]. intros row _ Hrow. by rewrite length_alter.
Qed.

Lemma has_shape_add shape a b :
  np.has_shape shape a → np.has_shape shape b → np.has_shape shape (np.add a b).
Proof.
  intros [Ha Hra] [Hb Hrb]. split; unfold np.add.
  - rewrite length_zip_with. lia.
  - apply Forall_lookup. intros i row Hrow.
    apply lookup_zip_with_Some in Hrow as (ra & rb & -> & Hia & Hib).
    rewrite length_zip_with.
    rewrite (Forall_lookup_1 _ _ _ _ Hra Hia), (Forall_lookup_1 _ _ _ _ Hrb Hib). lia.
Qed.

Lemma has_shape_row shape a y row :
  np.has_shape shape a → a !! y = Some row → length row = snd shape.
Proof. intros [_ H] Hy. by apply (Forall_lookup_1 _ _ _ _ H Hy). Qed.

(** The cell read after [a[y, x] += v]. *)
Lemma cell_add_at shape a y x v i j :
  np.has_shape shape a →
  np.cell (np.add_at a y x v) i j
  = (np.cell a i j
     + if bool_decide (y = i ∧ x = j ∧ y < fst shape ∧ x < snd shape) then v else 0)%nat.
Proof.
  intros Hshape. pose proof Hshape as [Hrows _].
  unfold np.cell, np.add_at. rewrite list_lookup_alter.
  destruct (decide (y = i)) as [->|Hy].
  - destruct (a !! i) as [row|] eqn:Hrow; cbn.
    + pose proof (has_shape_row _ _ _ _ Hshape Hrow) as Hlen.
      apply lookup_lt_Some in Hrow.
      rewrite list_lookup_alter.
      destruct (decide (x = j)) as [->|Hx].
      * destruct (row !! j) as [c|] eqn:Hc; cbn.
        -- apply lookup_lt_Some in Hc. rewrite bool_decide_eq_true_2; [done|lia].
        -- apply lookup_ge_None in Hc. rewrite bool_decide_eq_false_2; [done|lia].
      * rewrite bool_decide_eq_false_2; [lia|]. by intros (_ & ? & _).
    + apply lookup_ge_None in Hrow. rewrite bool_decide_eq_false_2; [done|lia].
  - rewrite bool_decide_eq_false_2; [lia|]. by intros (? & _).
Qed.

Lemma cell_add shape a b i j :
  np.has_shape shape a → np.has_shape shape b →
  np.cell (np.add a b) i j = (np.cell a i j + np.cell b i j)%nat.
Proof.
  intros Ha Hb. unfold np.cell, np.add. rewrite lookup_zip_with.
  destruct (a !! i) as [ra|] eqn:Hra; cbn.
  - destruct (b !! i) as [rb|] eqn:Hrb; cbn.
    + rewrite lookup_zip_with.
      pose proof (has_shape_row _ _ _ _ Ha Hra) as Hla.
      pose proof (has_shape_row _ _ _ _ Hb Hrb) as Hlb.
      destruct (ra !! j) as [ca|] eqn:Hca; cbn.
      * destruct (rb !! j) as [cb|] eqn:Hcb; cbn; [done|].
        apply lookup_lt_Some in Hca. apply lookup_ge_None in Hcb. lia.
      * destruct (rb !! j) as [cb|] eqn:Hcb; cbn; [|done].
        apply lookup_lt_Some in Hcb. apply lookup_ge_None in Hca. lia.
    + apply lookup_lt_Some in Hra. apply lookup_ge_None in Hrb.
      destruct Ha, Hb. lia.
  - destruct (b !! i) as [rb|] eqn:Hrb; cbn; [|done].
    apply lookup_lt_Some in Hrb. apply lookup_ge_None in Hra.
    destruct Ha, Hb. lia.
Qed.

(** Two arrays of one shape with the same cells are the same array. *)
Lemma ndarray_ext shape a b :
  np.has_shape shape a → np.has_shape shape b →
  (∀ i j, np.cell a i j = np.cell b i j) → a = b.
Proof.
  intros Ha Hb Hcells. apply list_eq. intros i.
  destruct (a !! i) as [ra|] eqn:Hra, (b !! i) as [rb|] eqn:Hrb.
  - f_equal. apply list_eq. intros j.
    pose proof (has_shape_row _ _ _ _ Ha Hra) as Hla.
    pose proof (has_shape_row _ _ _ _ Hb Hrb) as Hlb.
    specialize (Hcells i j). unfold np.cell in Hcells.
    rewrite Hra, Hrb in Hcells. cbn in Hcells.
    destruct (ra !! j) as [ca|] eqn:Hca, (rb !! j) as [cb|] eqn:Hcb; cbn in *.
    + by subst.
    + apply lookup_lt_Some in Hca. apply lookup_ge_None in Hcb. lia.
    + apply lookup_lt_Some in Hcb. apply lookup_ge_None in Hca. lia.
    + done.
  - apply lookup_lt_Some in Hra. apply lookup_ge_None in Hrb. destruct Ha, Hb. lia.
  - apply lookup_lt_Some in Hrb. apply lookup_ge_None in Hra. destruct Ha, Hb. lia.
  - done.
Qed.

(** ** Downsampling *)

Lemma fold_left_sums_to {A} shape (f1 f2 f12 : np.ndarray → A → np.ndarray) (l : list A) :
  (∀ x a1 a2 a12, sums_to shape a1 a2 a12 → sums_to shape (f1 a1 x) (f2 a2 x) (f12 a12 x)) →
  ∀ a1 a2 a12, sums_to shape a1 a2 a12 →
    sums_to shape (fold_left f1 l a1) (fold_left f2 l a2) (fold_left f12 l a12).
Proof.
  intros Hstep. induction l as [|x l IH]; intros a1 a2 a12 H; cbn; [done|].
  apply IH, Hstep, H.
Qed.

Lemma guarded_add_at_cell shape a y x c i j :
  np.has_shape shape a →
  np.cell (if (0 <? c)%nat then np.add_at a y x c else a) i j
  = (np.cell a i j
     + if bool_decide (y = i ∧ x = j ∧ y < fst shape ∧ x < snd shape) then c else 0)%nat.
Proof.
  intros Ha. destruct (Nat.ltb_spec 0 c).
  - by apply cell_add_at.
  - assert (c = 0)%nat as -> by lia. case_bool_decide; lia.
Qed.

Lemma guarded_add_at_shape shape a y x c :
  np.has_shape shape a →
  np.has_shape shape (if (0 <? c)%nat then np.add_at a y x c else a).
Proof. intros Ha. case_match; [by apply has_shape_add_at|done]. Qed.

(** C9. Downsampling is additive: for two high-resolution grids of the
    fixed resolution, the coarse 20x20 grid computed from their cell-wise
    sum is the cell-wise sum of the coarse grids computed from each. *)
Theorem aggregate_additive (g1 g2 : np.ndarray) :
  np.has_shape heatmap_resolution g1 →
  np.has_shape heatmap_resolution g2 →
  aggregate (np.add g1 g2) = np.add (aggregate g1) (aggregate g2).
Proof.
  intros H1 H2.
  assert (sums_to (vis_grid_size, vis_grid_size)
            (aggregate g1) (aggregate g2) (aggregate (np.add g1 g2)))
    as (Ha1 & Ha2 & Ha12 & Hcells).
  { unfold aggregate. apply fold_left_sums_to.
    - intros y a1 a2 a12 Hacc. apply fold_left_sums_to; [|done].
      clear a1 a2 a12 Hacc. intros x a1 a2 a12 (Hs1 & Hs2 & Hs12 & Hc).
      repeat split; try by apply guarded_add_at_shape.
      intros i j.
      rewrite !(guarded_add_at_cell (vis_grid_size, vis_grid_size)) by done.
      rewrite Hc, (cell_add heatmap_resolution) by done.
      case_bool_decide; lia.
    - repeat split; try apply has_shape_zeros.
      intros i j. by rewrite !cell_zeros. }
  apply (ndarray_ext (vis_grid_size, vis_grid_size)); [done|by apply has_shape_add|].
  intros i j. by rewrite Hcells, (cell_add (vis_grid_size, vis_grid_size)).
Qed.

(** ** Shape of the heat map *)

Lemma increment_shape shape a iy ix a' :
  np.has_shape shape a → np.increment a iy ix = Some a' → np.has_shape shape a'.
Proof.
  intros Ha. unfold np.increment. intros H.
  destruct (np.index _ iy) as [y|]; cbn in H; [|done].
  destruct (a !! y) as [row|]; cbn in H; [|done].
  destruct (np.index _ ix) as [x|]; cbn in H; [|done].
  injection H as <-. by apply has_shape_add_at.
Qed.

Lemma heatmap_increment_keeps_shape camera_id gy gx :
  keeps heatmaps_shaped (heatmap_increment camera_id gy gx).
Proof.
  intros s Hs. unfold heatmap_increment.
  assert (np.has_shape heatmap_resolution
            (default (np.zeros heatmap_resolution) (zone_heatmap s !! camera_id))) as Hg.
  { destruct (zone_heatmap s !! camera_id) eqn:E; cbn; [by eapply Hs|apply has_shape_zeros]. }
  destruct (np.increment _ _ _) as [g'|] eqn:Hinc;
    intros cam g; cbn [fst set_zone_heatmap zone_heatmap];
    (destruct (decide (camera_id = cam)) as [->|Hne];
     [rewrite lookup_insert_eq; intros [= <-]|rewrite lookup_insert_ne by done; apply Hs]).
  - by eapply increment_shape.
  - done.
Qed.

Lemma heatmaps_shaped_same s s' :
  zone_heatmap s' = zone_heatmap s → heatmaps_shaped s → heatmaps_shaped s'.
Proof. unfold heatmaps_shaped. by intros ->. Qed.

Lemma init_heatmaps_shaped database db_now : heatmaps_shaped (init database db_now).
Proof.
  unfold init, _rebuild_heatmap_from_db.
  apply keeps_try_except.
  - apply keeps_for_each. intros [camera_id [[[x1 y1] x2] y2]]. cbn.
    apply heatmap_increment_keeps_shape.
  - intros cam g. cbn. by rewrite lookup_empty.
Qed.

Section Recording.
Variable np_sqrt : Q → Q.
Variable np_arctan2 : Q → Q → Q.

Lemma process_frame_detections_keeps_shape timestamp db_now camera_id detections frame_number :
  keeps heatmaps_shaped
    (process_frame_detections np_sqrt np_arctan2 timestamp db_now camera_id
       detections frame_number).
Proof.
  unfold process_frame_detections.
  apply keeps_bind; [apply keeps_modify; intros s; by apply heatmaps_shaped_same|intros _].
  apply keeps_bind.
  { apply keeps_for_each. intros d. unfold process_detection.
    apply keeps_bind; [apply keeps_modify; intros s; by apply heatmaps_shaped_same|intros _].
    apply keeps_bind;
      [|intros _; apply keeps_modify; intros s; by apply heatmaps_shaped_same].
    case_match; [|apply keeps_ret].
    apply keeps_bind; [apply keeps_modify; intros s; by apply heatmaps_shaped_same|intros _].
    apply keeps_bind.
    - apply keeps_modify. intros s. apply heatmaps_shaped_same.
      by apply (track_movement_preserves np_sqrt np_arctan2 zone_heatmap).
    - intros _. destruct (get_bbox d) as [[[x1 y1] x2] y2]. cbn.
      apply heatmap_increment_keeps_shape. }
  intros _. apply keeps_bind.
  { intros s. apply heatmaps_shaped_same.
    by apply (check_alerts_preserves zone_heatmap). }
  intros alerts.
  apply keeps_bind.
  { apply keeps_modify. intros s. apply heatmaps_shaped_same.
    unfold update_peak_count. by case_match. }
  intros _. apply keeps_bind; [|intros _; apply keeps_ret].
  apply keeps_modify. intros s. apply heatmaps_shaped_same.
  unfold update_average_confidence. by case_match.
Qed.

(** Every grid an aggregator ever holds has the fixed resolution. *)
Lemma reachable_heatmaps_shaped database db_now calls :
  heatmaps_shaped (run_calls np_sqrt np_arctan2 (init database db_now) calls).
Proof.
  generalize (init_heatmaps_shaped database db_now).
  generalize (init database db_now) as s.
  induction calls as [|c calls IH]; intros s Hs; [done|].
  cbn. apply IH. by apply process_frame_detections_keeps_shape.
Qed.

(** ** Detections without a usable track id *)

Lemma process_detection_untracked timestamp db_now camera_id frame_number d s :
  truthy_track_id (d_track_id d) = None →
  process_detection np_sqrt np_arctan2 timestamp db_now camera_id frame_number d s
  = (_store_detection db_now camera_id d frame_number
       (set_detection_confidence s
          (deque_append confidence_maxlen (detection_confidence s) (get_confidence d))),
     Returned tt).
Proof. intros H. unfold process_detection. rewrite H. reflexivity. Qed.

(** C10. A detection whose track id is 0, in a call of
    [process_frame_detections]: the call counts it in [total_detections];
    and the loop body, in whatever state it meets the detection, returns
    normally having appended its confidence to the confidence window and
    its row (with track id 0) to the detections table, and nothing else:
    [unique_tracks], the track histories, the movement patterns and the heat
    map are left as they were. *)
Theorem zero_track_id_is_untracked timestamp db_now camera_id frame_number
    (d : Detection) (detections : list Detection) (s st : BisonAnalytics) :
  d_track_id d = Some 0%Z →
  d ∈ detections →
  total_detections (stats (fst (process_frame_detections np_sqrt np_arctan2
      timestamp db_now camera_id detections frame_number s)))
    = (total_detections (stats s) + length detections)%nat
  ∧ process_detection np_sqrt np_arctan2 timestamp db_now camera_id frame_number d st
    = (_store_detection db_now camera_id d frame_number
         (set_detection_confidence st
            (deque_append confidence_maxlen (detection_confidence st) (get_confidence d))),
       Returned tt)
  ∧ let st' := fst (process_detection np_sqrt np_arctan2 timestamp db_now camera_id
                      frame_number d st) in
    detection_confidence st'
      = deque_append confidence_maxlen (detection_confidence st) (get_confidence d)
    ∧ Analytics.detections (db st')
      = Analytics.detections (db st) ++ [detection_row db_now camera_id d frame_number]
    ∧ r_track_id (detection_row db_now camera_id d frame_number) = Some 0%Z
    ∧ unique_tracks (stats st') = unique_tracks (stats st)
    ∧ tracking_history st' = tracking_history st
    ∧ movement_patterns st' = movement_patterns st
    ∧ zone_heatmap st' = zone_heatmap st.
Proof.
  intros Hzero _.
  split; [apply process_frame_detections_total|].
  rewrite process_detection_untracked by (by rewrite Hzero).
  split; [done|]. cbn.
  repeat split; try done.
  unfold detection_row. destruct (get_bbox d) as [[[x1 y1] x2] y2]. done.
Qed.

(** ** Which alerts reach the alerts table *)

(** [_check_alerts] inserts a row for the high-activity alert and for no
    other alert. *)
Lemma check_alerts_stores_high_activity_only db_now camera_id detections s :
  alerts (db (fst (_check_alerts db_now camera_id detections s)))
  = alerts (db s)
    ++ (if (threshold_high_activity <? length detections)%nat
        then [alert_row db_now (high_activity camera_id (length detections))]
        else []).
Proof.
  unfold _check_alerts. case_match; cbn; [done|by rewrite app_nil_r].
Qed.

(** C2 (low-confidence and rapid-movement alerts are not persisted). On a
    fresh aggregator over an empty database, a frame with one detection of
    confidence 0.1 makes [process_frame_detections] return a low-confidence
    alert, and the alerts table is still empty afterwards. *)
Theorem low_confidence_alert_returned_not_stored :
  let d := Samples.detection None (1 # 10) (100, 100, 200, 200)%Q in
  let outcome :=
    process_frame_detections np_sqrt np_arctan2 1000000 1 "cam1" [d] 1
      (init Samples.empty_database 0) in
  snd outcome
    = Returned {| res_count := 1;
                  res_alerts := [low_confidence "cam1" (1 # 10)];
                  res_timestamp := 1000000 |}
  ∧ alerts (db (fst outcome)) = []
  ∧ total_alerts (stats (fst outcome)) = 1%nat.
Proof. repeat split; vm_compute; reflexivity. Qed.

(** ** Live update against rebuild *)

(** C3 (the two mappings differ). A detection of track 7 with box
    [(960, 540, 1160, 740)] recorded on a fresh aggregator increments cell
    (row 5, column 5) of the camera's grid: the top-left corner of the
    box on a 10x10 scale.  Rebuilding from the row this very call persisted
    increments cell (row 59, column 55): the centre of the box on the
    100x100 scale. *)
Theorem live_update_and_rebuild_touch_different_cells :
  let d := Samples.detection (Some 7%Z) (9 # 10) (960, 540, 1160, 740)%Q in
  let recorded :=
    fst (process_frame_detections np_sqrt np_arctan2 1000000 1 "cam1" [d] 1
           (init Samples.empty_database 0)) in
  let rebuilt := init (db recorded) 2 in
  Analytics.detections (db recorded) = [detection_row 1 "cam1" d 1]
  ∧ zone_heatmap recorded !! "cam1"
    = Some (np.add_at (np.zeros heatmap_resolution) 5 5 1)
  ∧ zone_heatmap rebuilt !! "cam1"
    = Some (np.add_at (np.zeros heatmap_resolution) 59 55 1)
  ∧ np.add_at (np.zeros heatmap_resolution) 5 5 1
    ≠ np.add_at (np.zeros heatmap_resolution) 59 55 1.
Proof.
  repeat split; try (vm_compute; reflexivity).
  intros H. apply (f_equal (λ g, np.cell g 5 5)) in H. vm_compute in H. discriminate.
Qed.

End Recording.

Lemma history_capped_oldest_first_witness :
  let full :=
    run_calls sqrt_milli arctan2_octant (init empty_database 0) thousand_sightings in
  let h := default [] (tracking_history full !! 7%Z) in
  (length h ≤ 1000)%nat
  ∧ tracking_history
      (_track_movement sqrt_milli arctan2_octant 7 (5, 5, 5, 5)%Q 1000000 full) !! 7%Z
    = Some (tail h ++ [center_position (5, 5, 5, 5)%Q 1000000]).
Proof.
  intros full h.
  assert ((length h =? 1000)%nat = true) as Hfull by (vm_compute; reflexivity).
  pose proof (history_capped_oldest_first sqrt_milli arctan2_octant empty_database 0
                thousand_sightings 7%Z h (5, 5, 5, 5)%Q 1000000) as H.
  rewrite Hfull in H. apply H.
  vm_compute. reflexivity.
Defined.

(** The history of the thousand sightings is full, and starts with the
    first of them. *)
Example thousand_sightings_fill_history :
  let full :=
    run_calls sqrt_milli arctan2_octant (init empty_database 0) thousand_sightings in
  length <$> tracking_history full !! 7%Z = Some 1000%nat
  ∧ (tracking_history full !! 7%Z) ≫= head = Some (0 / 2, 0 / 2, 1000000%Z)%Q.
Proof. split; vm_compute; reflexivity. Qed.

Lemma track_movement_speed_guard_witness :
  movement_patterns
    (_track_movement sqrt_milli arctan2_octant 7 (960, 540, 1160, 740)%Q 1000000
       one_sighting)
  = movement_patterns one_sighting.
Proof.
  apply (track_movement_speed_guard sqrt_milli arctan2_octant 7 960 540 1160 740
           1000000 one_sighting
           [center_position (960, 540, 1160, 740)%Q 1000000]
           ((960 + 1160) / 2)%Q ((540 + 740) / 2)%Q 1000000).
  - vm_compute. reflexivity.
  - vm_compute. reflexivity.
Defined.

Lemma aggregate_additive_witness :
  aggregate (np.add (np.add_at (np.zeros heatmap_resolution) 5 5 1)
                    (np.add_at (np.zeros heatmap_resolution) 59 55 2))
  = np.add (aggregate (np.add_at (np.zeros heatmap_resolution) 5 5 1))
           (aggregate (np.add_at (np.zeros heatmap_resolution) 59 55 2)).
Proof.
  apply aggregate_additive; unfold np.has_shape;
    (split; [reflexivity|]); apply (bool_decide_unpack _); vm_compute; reflexivity.
Defined.

Lemma zero_track_id_is_untracked_witness :
  let d := detection (Some 0%Z) (1 # 2) (10, 10, 50, 50)%Q in
  let s := init empty_database 0 in
  let st' := fst (process_detection sqrt_milli arctan2_octant 1000000 1 "cam1" 1 d s) in
  total_detections (stats (fst (process_frame_detections sqrt_milli arctan2_octant
      1000000 1 "cam1" [d] 1 s))) = 1%nat
  ∧ unique_tracks (stats st') = ∅
  ∧ tracking_history st' = ∅
  ∧ zone_heatmap st' = ∅
  ∧ Analytics.detections (db st') = [detection_row 1 "cam1" d 1].
Proof.
  intros d s st'.
  destruct (zero_track_id_is_untracked sqrt_milli arctan2_octant 1000000 1 "cam1" 1
              d [d] s s) as (Hcount & _ & _ & Hrows & _ & Huniq & Hhist & _ & Hheat).
  - reflexivity.
  - apply list_elem_of_In. left. reflexivity.
  - split_and!; [exact Hcount|exact Huniq|exact Hhist|exact Hheat|exact Hrows].
Defined.

(** Two sightings of track 7 one second and 100 pixels apart: the speed is
    100 pixels per second, the rapid-movement alert is returned, and the
    alerts table stays empty. *)
Example rapid_movement_alert_returned_not_stored :
  let d := detection (Some 7%Z) (9 # 10) (1060, 540, 1260, 740)%Q in
  let outcome :=
    process_frame_detections sqrt_milli arctan2_octant 2000000 2 "cam1" [d] 2
      one_sighting in
  (res_alerts <$> match snd outcome with Returned r => Some r | Raised _ => None end)
    = Some [rapid_movement "cam1" 7 ((100000 # 1000) / (1000000 # 1000000))%Q]
  ∧ alerts (db (fst outcome)) = [].
Proof. split; vm_compute; reflexivity. Qed.

(** A full deque drops its oldest element on append. *)
Example deque_append_at_bound : deque_append 3 [1; 2; 3]%nat 4%nat = [2; 3; 4]%nat.
Proof. reflexivity. Qed.

End AnalyticsProps.
